(** * SwissLakeDir: the expert directory search component

    A shallow embedding of [src/components/KeywordSearchApp2.tsx] (the
    [KeywordSearchApp] React component) and of the earlier variant of its
    search handler, followed by the properties of its load, statistics and
    search logic.

    Modelling conventions.
    - A JavaScript string is a [string]: a sequence of code units, each an
      [ascii] read as a code point of U+0000..U+00FF.  On that range
      [String.prototype.toLowerCase] acts unit by unit and
      [String.prototype.trim] strips the units 9..13, 32 and 160.
    - React state is the record [AppState]; a [setX] call is a field update
      and a handler is a function [AppState -> AppState].
    - [new Set(xs).size] is the size of a [gset string].
    - A row object delivered by the CSV library is a [gmap string string];
      a missing key reads as [undefined], modelled by [None].
    - The CSV library itself is not part of the repository: the loader is
      stated over any parser, and [Papa.parse] models the library on plain
      comma-separated text. *)

From Stdlib Require Import String Ascii NArith Bool List Lia.
From stdpp Require Import base decidable option list strings gmap pretty.

Local Open Scope string_scope.
Local Open Scope list_scope.

(** ** JavaScript string primitives *)

Module JS.

(** WhiteSpace and LineTerminator code points below U+0100:
    TAB, LF, VT, FF, CR, SP and NBSP. *)
Definition isWhiteSpace (c : ascii) : bool :=
  let n := N_of_ascii c in
  ((9 <=? n) && (n <=? 13) || (n =? 32) || (n =? 160))%N.

(** Upper-case letters below U+0100: A..Z and the Latin-1 capitals
    U+00C0..U+00DE without the multiplication sign U+00D7. *)
Definition isUpper (c : ascii) : bool :=
  let n := N_of_ascii c in
  ((65 <=? n) && (n <=? 90)
   || (192 <=? n) && (n <=? 222) && negb (n =? 215))%N.

Definition toLowerUnit (c : ascii) : ascii :=
  if isUpper c then ascii_of_N (N_of_ascii c + 32) else c.

Fixpoint toLowerCase (s : string) : string :=
  match s with
  | EmptyString => EmptyString
  | String c s' => String (toLowerUnit c) (toLowerCase s')
  end.

Fixpoint trimStart (s : string) : string :=
  match s with
  | EmptyString => EmptyString
  | String c s' => if isWhiteSpace c then trimStart s' else s
  end.

Fixpoint trimEnd (s : string) : string :=
  match s with
  | EmptyString => EmptyString
  | String c s' =>
      match trimEnd s' with
      | EmptyString => if isWhiteSpace c then EmptyString else String c EmptyString
      | String d r => String c (String d r)
      end
  end.

Definition trim (s : string) : string := trimEnd (trimStart s).

(** [s.startsWith(p)] *)
Fixpoint startsWith (s p : string) {struct p} : bool :=
  match p, s with
  | EmptyString, _ => true
  | String _ _, EmptyString => false
  | String b p', String a s' => if ascii_dec a b then startsWith s' p' else false
  end.

(** [s.includes(p)]: [p] starts at some position of [s]. *)
Fixpoint includes (s p : string) : bool :=
  startsWith s p ||
  match s with
  | EmptyString => false
  | String _ s' => includes s' p
  end.

(** ToBoolean on a string: only the empty string is falsy. *)
Definition truthy (s : string) : bool :=
  match s with
  | EmptyString => false
  | String _ _ => true
  end.

(** [o || ''] where [o] is a string or [undefined]. *)
Definition orEmpty (o : option string) : string :=
  match o with
  | Some s => if truthy s then s else ""
  | None => ""
  end.

(** [new Set(xs).size] *)
Definition setSize (xs : list string) : nat :=
  size (list_to_set xs : gset string).

End JS.

(** ** Data model *)

Record Person := mkPerson {
  name : string;
  affiliation : string;
  keyword1 : string;
  keyword2 : string;
  keyword3 : string
}.

Record DirectoryStats := mkStats {
  expertCount : nat;
  expertiseCount : nat;
  affiliationCount : nat
}.

(** The seven [useState] cells of the component. *)
Record AppState := mkState {
  data : list Person;
  isLoading : bool;
  searchTerm : string;
  searchResults : list Person;
  error : option string;
  searchPerformed : bool;
  stats : DirectoryStats
}.

Definition initialState : AppState :=
  {| data := [];
     isLoading := true;
     searchTerm := "";
     searchResults := [];
     error := None;
     searchPerformed := false;
     stats := {| expertCount := 0; expertiseCount := 0; affiliationCount := 0 |} |}.

Definition setData (v : list Person) (st : AppState) : AppState :=
  mkState v (isLoading st) (searchTerm st) (searchResults st) (error st)
          (searchPerformed st) (stats st).

Definition setIsLoading (v : bool) (st : AppState) : AppState :=
  mkState (data st) v (searchTerm st) (searchResults st) (error st)
          (searchPerformed st) (stats st).

Definition setSearchTerm (v : string) (st : AppState) : AppState :=
  mkState (data st) (isLoading st) v (searchResults st) (error st)
          (searchPerformed st) (stats st).

Definition setSearchResults (v : list Person) (st : AppState) : AppState :=
  mkState (data st) (isLoading st) (searchTerm st) v (error st)
          (searchPerformed st) (stats st).

Definition setError (v : option string) (st : AppState) : AppState :=
  mkState (data st) (isLoading st) (searchTerm st) (searchResults st) v
          (searchPerformed st) (stats st).

Definition setSearchPerformed (v : bool) (st : AppState) : AppState :=
  mkState (data st) (isLoading st) (searchTerm st) (searchResults st) (error st)
          v (stats st).

Definition setStats (v : DirectoryStats) (st : AppState) : AppState :=
  mkState (data st) (isLoading st) (searchTerm st) (searchResults st) (error st)
          (searchPerformed st) v.

(** Sequencing of state updates, in program order. *)
Notation "st |> f" := (f st) (at level 45, left associativity, only parsing).

(** ** Search handlers *)

(** The predicate passed to [data.filter] in [handleSearch]. *)
Definition matchesPerson (normalizedSearchTerm : string) (person : Person) : bool :=
  JS.includes (JS.toLowerCase (name person)) normalizedSearchTerm ||
  JS.includes (JS.toLowerCase (affiliation person)) normalizedSearchTerm ||
  JS.includes (JS.toLowerCase (keyword1 person)) normalizedSearchTerm ||
  JS.includes (JS.toLowerCase (keyword2 person)) normalizedSearchTerm ||
  JS.includes (JS.toLowerCase (keyword3 person)) normalizedSearchTerm.

Definition handleSearchChange (value : string) (st : AppState) : AppState :=
  let st := st |> setSearchTerm value in
  if String.eqb value "" then
    st |> setSearchResults [] |> setSearchPerformed false
  else st.

Definition handleSearch (st : AppState) : AppState :=
  if negb (JS.truthy (JS.trim (searchTerm st))) then
    st |> setSearchResults [] |> setSearchPerformed false
  else
    let normalizedSearchTerm := JS.trim (JS.toLowerCase (searchTerm st)) in
    let results := List.filter (matchesPerson normalizedSearchTerm) (data st) in
    st |> setSearchResults results |> setSearchPerformed true.

Definition handleKeyPress (key : string) (st : AppState) : AppState :=
  if String.eqb key "Enter" then handleSearch st else st.

(** The earlier variant of the handler (first component of the unnamed
    source file), whose filter does not look at [affiliation]. *)
Module Earlier.

Definition matchesPerson (normalizedSearchTerm : string) (person : Person) : bool :=
  JS.includes (JS.toLowerCase (name person)) normalizedSearchTerm ||
  JS.includes (JS.toLowerCase (keyword1 person)) normalizedSearchTerm ||
  JS.includes (JS.toLowerCase (keyword2 person)) normalizedSearchTerm ||
  JS.includes (JS.toLowerCase (keyword3 person)) normalizedSearchTerm.

Definition handleSearch (st : AppState) : AppState :=
  if negb (JS.truthy (JS.trim (searchTerm st))) then
    st |> setSearchResults [] |> setSearchPerformed false
  else
    let normalizedSearchTerm := JS.trim (JS.toLowerCase (searchTerm st)) in
    let results := List.filter (matchesPerson normalizedSearchTerm) (data st) in
    st |> setSearchResults results |> setSearchPerformed true.

End Earlier.

(** User events reaching the component once it is rendered. *)
Inductive Event :=
| InputChange (value : string)
| ButtonClick
| KeyPress (key : string).

Definition step (st : AppState) (ev : Event) : AppState :=
  match ev with
  | InputChange value => handleSearchChange value st
  | ButtonClick => handleSearch st
  | KeyPress key => handleKeyPress key st
  end.

Definition run (evs : list Event) (st : AppState) : AppState :=
  fold_left step evs st.

(** ** Loading the directory *)

(** Abrupt completion of a statement inside [try]: a value, or a thrown
    [Error] carrying its [message]; awaiting a rejected promise throws. *)
Inductive Completion (A : Type) :=
| Normal (a : A)
| Throw (message : string).
Arguments Normal {A} a.
Arguments Throw {A} message.

Definition bind {A B : Type} (c : Completion A) (k : A -> Completion B) : Completion B :=
  match c with
  | Normal a => k a
  | Throw message => Throw message
  end.

Notation "'let!' x := c 'in' k" := (bind c (fun x => k))
  (at level 10, x name, c at level 100, k at level 200, only parsing).

(** What [fetch] settles with: the fields of the [Response] the loader reads. *)
Record Response := mkResponse {
  ok : bool;
  status : N;
  text : Completion string
}.

(** What [Papa.parse] does with the text: it calls [complete] with
    [results.data], or it calls [error]. *)
Inductive ParseOutcome :=
| ParseComplete (results_data : list (gmap string string))
| ParseError (err : string).

(** The row mapper inside [complete]. *)
Definition toPerson (row : gmap string string) : Person :=
  {| name := JS.orEmpty (row !! "name");
     affiliation := JS.orEmpty (row !! "affiliation");
     keyword1 := JS.orEmpty (row !! "keyword1");
     keyword2 := JS.orEmpty (row !! "keyword2");
     keyword3 := JS.orEmpty (row !! "keyword3") |}.

Definition onComplete (results_data : list (gmap string string)) (st : AppState) : AppState :=
  let parsedData := map toPerson results_data in
  let personData := parsedData in
  let st := st |> setData personData in
  let uniqueExperts := JS.setSize (map name personData) in
  let allKeywords :=
    List.filter JS.truthy
      (map keyword1 personData ++ map keyword2 personData ++ map keyword3 personData) in
  let uniqueKeywords := JS.setSize allKeywords in
  let uniqueAffiliations := JS.setSize (map affiliation personData) in
  st |> setStats {| expertCount := uniqueExperts;
                    expertiseCount := uniqueKeywords;
                    affiliationCount := uniqueAffiliations |}
     |> setIsLoading false.

Definition onError (st : AppState) : AppState :=
  st |> setError (Some "Failed to parse CSV data. Please check the file format.")
     |> setIsLoading false.

Definition sampleData : list Person :=
  [ mkPerson "John Smith" "University of Technology" "machine learning" "neural networks" "computer vision";
    mkPerson "Maria Garcia" "Research Institute" "data mining" "statistics" "big data";
    mkPerson "Wei Zhang" "Tech Solutions Inc" "cloud computing" "distributed systems" "scalability";
    mkPerson "Aisha Johnson" "Global Analytics" "data visualization" "business intelligence" "machine learning";
    mkPerson "Carlos Rodriguez" "University of Science" "robotics" "control systems" "automation";
    mkPerson "Fatima Ali" "Health Research Center" "bioinformatics" "genomics" "medical imaging";
    mkPerson "David Wilson" "Innovation Labs" "virtual reality" "augmented reality" "human-computer interaction";
    mkPerson "Emily Chen" "Tech Solutions Inc" "web development" "user experience" "accessibility";
    mkPerson "James Brown" "University of Technology" "artificial intelligence" "machine learning" "deep learning";
    mkPerson "Sophia Kumar" "Data Science Center" "statistics" "natural language processing" "sentiment analysis" ].

(** The [catch] block. *)
Definition onCatch (message : string) (st : AppState) : AppState :=
  st |> setData sampleData
     |> setStats {| expertCount := 10; expertiseCount := 24; affiliationCount := 7 |}
     |> setError (Some ("Note: Using sample data. Couldn't load CSV: " +:+ message))
     |> setIsLoading false.

(** The [try] block.  [fetched] is what [await fetch(csvFilePath)] gives and
    [parse] is the CSV library called with [header: true] and
    [skipEmptyLines: true]. *)
Definition tryLoad (parse : string -> ParseOutcome) (fetched : Completion Response)
    (st : AppState) : Completion AppState :=
  let! response := fetched in
  if negb (ok response) then
    Throw ("HTTP error! Status: " +:+ pretty (status response))
  else
    let! csvText := text response in
    if JS.startsWith (JS.trim csvText) "<!DOCTYPE html>" then
      Throw "Received HTML instead of CSV data. Check the file path."
    else
      Normal (match parse csvText with
              | ParseComplete results_data => onComplete results_data st
              | ParseError _ => onError st
              end).

Definition loadData (parse : string -> ParseOutcome) (fetched : Completion Response)
    (st : AppState) : AppState :=
  match tryLoad parse fetched st with
  | Normal st' => st'
  | Throw message => onCatch message st
  end.

(** The intermediate variant of the loader (second component of the unnamed
    source file): the same [try] and [catch] blocks without the statistics.
    That component has no [stats] cell, so the cell is left untouched here. *)
Module Middle.

Definition onComplete (results_data : list (gmap string string)) (st : AppState) : AppState :=
  let parsedData := map toPerson results_data in
  st |> setData parsedData |> setIsLoading false.

Definition onError (st : AppState) : AppState :=
  st |> setError (Some "Failed to parse CSV data. Please check the file format.")
     |> setIsLoading false.

Definition onCatch (message : string) (st : AppState) : AppState :=
  st |> setData sampleData
     |> setError (Some ("Note: Using sample data. Couldn't load CSV: " +:+ message))
     |> setIsLoading false.

Definition tryLoad (parse : string -> ParseOutcome) (fetched : Completion Response)
    (st : AppState) : Completion AppState :=
  let! response := fetched in
  if negb (ok response) then
    Throw ("HTTP error! Status: " +:+ pretty (status response))
  else
    let! csvText := text response in
    if JS.startsWith (JS.trim csvText) "<!DOCTYPE html>" then
      Throw "Received HTML instead of CSV data. Check the file path."
    else
      Normal (match parse csvText with
              | ParseComplete results_data => onComplete results_data st
              | ParseError _ => onError st
              end).

Definition loadData (parse : string -> ParseOutcome) (fetched : Completion Response)
    (st : AppState) : AppState :=
  match tryLoad parse fetched st with
  | Normal st' => st'
  | Throw message => onCatch message st
  end.

End Middle.

(** ** The CSV library *)

(** The options passed to [Papa.parse] beside the two callbacks. *)
Record ParseConfig := mkConfig {
  header : bool;
  skipEmptyLines : bool
}.

(** The options object of the loader: [header: true, skipEmptyLines: true]. *)
Definition parseConfig : ParseConfig :=
  {| header := true; skipEmptyLines := true |}.

Definition LF : ascii := ascii_of_N 10.

Module Papa.

(** Modelled from the spec: [s.split(sep)] for a separator of one unit, as
    the library uses it to cut the text into lines and a line into cells. *)
Fixpoint split (sep : ascii) (s : string) : list string :=
  match s with
  | EmptyString => [""]
  | String c s' =>
      if ascii_dec c sep then "" :: split sep s'
      else match split sep s' with
           | [] => [String c ""]
           | cell :: cells => String c cell :: cells
           end
  end.

(** Modelled from the spec: the library's test for an empty line, a row
    made of one empty cell. *)
Definition testEmptyLine (cells : list string) : bool :=
  match cells with
  | [cell] => negb (JS.truthy cell)
  | _ => false
  end.

(** Modelled from the spec: the object built for a row under
    [header: true], [obj[fields[j]] = cells[j]] for each cell that has a
    field name.  Cells beyond the field names are not given a key of
    their own here. *)
Fixpoint rowObject (fields cells : list string) (obj : gmap string string)
    : gmap string string :=
  match fields, cells with
  | field :: fields', cell :: cells' => rowObject fields' cells' (<[field:=cell]> obj)
  | _, _ => obj
  end.

(** Modelled from the spec: without [header] a row is an array, whose keys
    are the decimal indices of its cells. *)
Definition rowArray (cells : list string) : gmap string string :=
  list_to_map (imap (fun j cell => (pretty j, cell)) cells).

(** Modelled from the spec: the CSV library [Papa.parse], which is not part
    of the repository, on text that holds no quote, no carriage return and
    no delimiter other than the comma: lines are cut at line feeds and cells
    at commas; [skipEmptyLines] drops the empty lines; under [header] the
    first remaining row names the columns and every later row becomes an
    object keyed by those names.  On a string the library always ends by
    calling [complete]. *)
Definition parse (config : ParseConfig) (input : string) : ParseOutcome :=
  let rows := map (split ",") (split LF input) in
  let rows :=
    if skipEmptyLines config
    then List.filter (fun cells => negb (testEmptyLine cells)) rows
    else rows in
  ParseComplete
    (if header config then
       match rows with
       | [] => []
       | fields :: rest => map (fun cells => rowObject fields cells ∅) rest
       end
     else map rowArray rows).

End Papa.

(** ** Specification vocabulary *)

(** [p] occurs in [s] as a contiguous run of code units. *)
Definition Substring (p s : string) : Prop :=
  exists pre post, s = pre +:+ p +:+ post.

(** The five fields a query is compared with. *)
Definition fields (person : Person) : list string :=
  [name person; affiliation person; keyword1 person; keyword2 person; keyword3 person].

(** The query, trimmed and lower-cased, occurs in a lower-cased field. *)
Definition Matches (Q : string) (person : Person) : Prop :=
  exists f, f ∈ fields person /\
            Substring (JS.toLowerCase (JS.trim Q)) (JS.toLowerCase f).

(** [ys] keeps exactly the elements of [xs] that satisfy [P], each as often
    as it occurs and in the order of [xs]. *)
Inductive StableFilter {A : Type} (P : A -> Prop) : list A -> list A -> Prop :=
| SF_nil : StableFilter P [] []
| SF_keep x xs ys : P x -> StableFilter P xs ys -> StableFilter P (x :: xs) (x :: ys)
| SF_drop x xs ys : ~ P x -> StableFilter P xs ys -> StableFilter P (x :: xs) ys.

(** There are exactly [n] strings with property [P]. *)
Definition CountOf (P : string -> Prop) (n : nat) : Prop :=
  exists ys : list string, NoDup ys /\ (forall x, x ∈ ys <-> P x) /\ length ys = n.

Definition IsName (R : list Person) (x : string) : Prop :=
  exists p, p ∈ R /\ name p = x.

Definition IsAffiliation (R : list Person) (x : string) : Prop :=
  exists p, p ∈ R /\ affiliation p = x.

Definition IsKeyword (R : list Person) (x : string) : Prop :=
  x <> "" /\ exists p, p ∈ R /\ (keyword1 p = x \/ keyword2 p = x \/ keyword3 p = x).

(** The value a record field gets from column [col] of [row]. *)
Definition ColumnValue (row : gmap string string) (col : string) (v : string) : Prop :=
  match row !! col with
  | Some s => v = s
  | None => v = ""
  end.

(** The ways a load can fail. *)
Inductive FailureKind :=
| NetworkError
| BadStatus
| BodyRejected
| HtmlPayload
| ParseFailure.

Inductive LoadFailure (parse : string -> ParseOutcome) :
    Completion Response -> FailureKind -> Prop :=
| LF_network message :
    LoadFailure parse (Throw message) NetworkError
| LF_status response :
    ok response = false ->
    LoadFailure parse (Normal response) BadStatus
| LF_body response message :
    ok response = true -> text response = Throw message ->
    LoadFailure parse (Normal response) BodyRejected
| LF_html response csvText :
    ok response = true -> text response = Normal csvText ->
    JS.startsWith (JS.trim csvText) "<!DOCTYPE html>" = true ->
    LoadFailure parse (Normal response) HtmlPayload
| LF_parse response csvText err :
    ok response = true -> text response = Normal csvText ->
    JS.startsWith (JS.trim csvText) "<!DOCTYPE html>" = false ->
    parse csvText = ParseError err ->
    LoadFailure parse (Normal response) ParseFailure.

(** A load that reaches [complete] with the rows [rows]. *)
Definition LoadSucceeds (parse : string -> ParseOutcome) (fetched : Completion Response)
    (rows : list (gmap string string)) : Prop :=
  exists response csvText,
    fetched = Normal response /\ ok response = true /\
    text response = Normal csvText /\
    JS.startsWith (JS.trim csvText) "<!DOCTYPE html>" = false /\
    parse csvText = ParseComplete rows.

(** ** Concrete inputs used in the examples *)

Definition rowOf (p : Person) : gmap string string :=
  {[ "name" := name p; "affiliation" := affiliation p;
     "keyword1" := keyword1 p; "keyword2" := keyword2 p; "keyword3" := keyword3 p ]}.

(** A parser that reports two rows, the second without keyword columns and
    with an empty affiliation. *)
Definition twoRows : list (gmap string string) :=
  [ rowOf (mkPerson "Ada" "Eawag" "mixing" "" "ice");
    {[ "name" := "Ada"; "affiliation" := "" ]} ].

Definition parseTwoRows (csvText : string) : ParseOutcome := ParseComplete twoRows.

Definition parseFails (csvText : string) : ParseOutcome :=
  ParseError "Unable to auto-detect delimiting character".

Definition okResponse (body : string) : Response :=
  {| ok := true; status := 200; text := Normal body |}.

Definition notFound : Response :=
  {| ok := false; status := 404; text := Normal "Not Found" |}.

(** The state after the load fell back to the sample data. *)
Definition fallbackState : AppState :=
  loadData parseFails (Normal notFound) initialState.

(** The state after typing [Q] into the input of the fallback directory,
    and after triggering the search on it. *)
Definition typedState (Q : string) : AppState :=
  run [InputChange Q] fallbackState.

Definition searchedState (Q : string) : AppState :=
  run [InputChange Q; ButtonClick] fallbackState.

Definition johnSmith : Person :=
  mkPerson "John Smith" "University of Technology"
           "machine learning" "neural networks" "computer vision".

Definition aishaJohnson : Person :=
  mkPerson "Aisha Johnson" "Global Analytics"
           "data visualization" "business intelligence" "machine learning".

Definition jamesBrown : Person :=
  mkPerson "James Brown" "University of Technology"
           "artificial intelligence" "machine learning" "deep learning".

(** ** Vocabulary for the properties of the handlers and the loader *)

(** The results held are records of the directory, in directory order, and
    results are held only after a search. *)
Definition Consistent (st : AppState) : Prop :=
  sublist (searchResults st) (data st) /\
  (searchPerformed st = false -> searchResults st = []).

(** An event sequence with the key presses resolved: Enter is a click on
    the button, any other key is dropped. *)
Definition canonical (evs : list Event) : list Event :=
  flat_map (fun ev => match ev with
                      | KeyPress key => if String.eqb key "Enter" then [ButtonClick] else []
                      | _ => [ev]
                      end) evs.

Fixpoint allWhiteSpace (s : string) : bool :=
  match s with
  | EmptyString => true
  | String c s' => JS.isWhiteSpace c && allWhiteSpace s'
  end.

(** The column names the row mapper reads. *)
Definition columns : list string :=
  ["name"; "affiliation"; "keyword1"; "keyword2"; "keyword3"].

(** ** Vocabulary for tabular text *)

(** The units a cell of plain tabular text does not hold: line feed,
    carriage return, comma, double quote, and the other delimiters the
    library could settle on (tab, bar, semicolon, record and unit
    separator). *)
Definition plainUnit (c : ascii) : bool :=
  negb (existsb (N.eqb (N_of_ascii c)) [10; 13; 44; 34; 9; 124; 59; 30; 31]%N).

Fixpoint plainCell (s : string) : bool :=
  match s with
  | EmptyString => true
  | String c s' => plainUnit c && plainCell s'
  end.

Fixpoint hasUnit (sep : ascii) (s : string) : bool :=
  match s with
  | EmptyString => false
  | String c s' => if ascii_dec c sep then true else hasUnit sep s'
  end.

(** The text of a table: the cells of a row joined by commas, the rows
    joined by line feeds. *)
Definition renderTable (table : list (list string)) : string :=
  String.concat (String LF "") (map (String.concat ",") table).

(** Every row has a cell and every cell is plain. *)
Definition PlainTable (table : list (list string)) : Prop :=
  Forall (fun row => row <> [] /\ Forall (fun cell => plainCell cell = true) row) table.

(** The rows whose line of text is not empty. *)
Definition nonEmptyRows (table : list (list string)) : list (list string) :=
  filter (fun row => row <> [""]) table.

(** Well-formed tabular input with a header row: plain cells, a first
    non-empty row [columnNames] that names each column once, and after it
    the non-empty data rows [rows], none with more cells than there are
    column names. *)
Definition WellFormedTable (table : list (list string)) (columnNames : list string)
    (rows : list (list string)) : Prop :=
  PlainTable table /\
  nonEmptyRows table = columnNames :: rows /\
  NoDup columnNames /\
  Forall (fun cells => length cells <= length columnNames) rows.

(** The value of column [col] in the row [cells]: the cell at the position
    where [col] stands among the column names, and the empty string when
    the row has no cell there or [col] is not a column. *)
Definition CellOf (columnNames cells : list string) (col v : string) : Prop :=
  (exists j, columnNames !! j = Some col /\ cells !! j = Some v) \/
  ((forall j, columnNames !! j = Some col -> cells !! j = None) /\ v = "").

(** A table with its columns in another order than the record fields, empty
    lines, and a row that stops before the last column. *)
Definition sampleTable : list (list string) :=
  [ ["keyword1"; "name"; "affiliation"];
    [""];
    ["mixing"; "Ada"; "Eawag"];
    ["ice"; "Bob"];
    [""] ].



(** Unfolds the loader down to the tests on the response. *)
Ltac unfold_load := cbv beta iota delta [loadData tryLoad bind].

(** ** String lemmas *)

Section Strings.

Lemma append_nil_l s : "" +:+ s = s.
Proof. reflexivity. Qed.

Lemma append_cons a s t : String a s +:+ t = String a (s +:+ t).
Proof. reflexivity. Qed.

Lemma startsWith_spec p : forall s,
  JS.startsWith s p = true <-> exists post, s = p +:+ post.
Proof.
  induction p as [|b p IH]; intros s; simpl.
  - split; [intros _; now exists s | auto].
  - destruct s as [|a s].
    + split; [discriminate | intros [post H]; discriminate].
    + destruct (ascii_dec a b) as [->|Hne].
      * rewrite IH. split; intros [post H]; exists post;
          rewrite append_cons in *; congruence.
      * split; [discriminate | intros [post H]].
        rewrite append_cons in H. congruence.
Qed.

Lemma includes_spec p : forall s,
  JS.includes s p = true <-> Substring p s.
Proof.
  unfold Substring.
  induction s as [|a s IH]; simpl; rewrite orb_true_iff, startsWith_spec.
  - split.
    + intros [[post H]|H]; [now exists "", post | discriminate].
    + intros (pre & post & H). left.
      destruct pre; [now exists post | discriminate].
  - rewrite IH. split.
    + intros [[post H]|(pre & post & H)].
      * now exists "", post.
      * exists (String a pre), post. rewrite append_cons. congruence.
    + intros (pre & post & H). destruct pre as [|c pre].
      * left. now exists post.
      * right. exists pre, post. rewrite append_cons in H. congruence.
Qed.

Lemma isWhiteSpace_toLowerUnit c :
  JS.isWhiteSpace (JS.toLowerUnit c) = JS.isWhiteSpace c.
Proof. destruct c as [[] [] [] [] [] [] [] []]; reflexivity. Qed.

Lemma trimStart_toLowerCase s :
  JS.trimStart (JS.toLowerCase s) = JS.toLowerCase (JS.trimStart s).
Proof.
  induction s as [|a s IH]; simpl; [reflexivity|].
  rewrite isWhiteSpace_toLowerUnit. now destruct (JS.isWhiteSpace a).
Qed.

Lemma trimEnd_toLowerCase s :
  JS.trimEnd (JS.toLowerCase s) = JS.toLowerCase (JS.trimEnd s).
Proof.
  induction s as [|a s IH]; simpl; [reflexivity|].
  rewrite IH. destruct (JS.trimEnd s); simpl; [|reflexivity].
  rewrite isWhiteSpace_toLowerUnit. now destruct (JS.isWhiteSpace a).
Qed.

(** Lower-casing and trimming commute, so the order in which
    [handleSearch] applies them does not matter. *)
Lemma trim_toLowerCase s :
  JS.trim (JS.toLowerCase s) = JS.toLowerCase (JS.trim s).
Proof. unfold JS.trim. now rewrite trimStart_toLowerCase, trimEnd_toLowerCase. Qed.

Lemma truthy_spec s : JS.truthy s = true <-> s <> "".
Proof. destruct s; simpl; split; congruence. Qed.

Lemma orEmpty_spec o : JS.orEmpty o = default "" o.
Proof. destruct o as [[|]|]; reflexivity. Qed.

End Strings.

Example trim_example : JS.trim "  Lake  Geneva  " = "Lake  Geneva".
Proof. reflexivity. Qed.

Example isWhiteSpace_example :
  map (fun n => JS.isWhiteSpace (ascii_of_N n)) [9; 10; 13; 32; 160; 133; 95]%N =
  [true; true; true; true; true; false; false].
Proof. reflexivity. Qed.

Example toLowerCase_example : JS.toLowerCase "Machine LEARNING-2" = "machine learning-2".
Proof. reflexivity. Qed.

Example toLowerUnit_latin1 :
  JS.toLowerUnit (ascii_of_N 201) = ascii_of_N 233 /\
  JS.toLowerUnit (ascii_of_N 215) = ascii_of_N 215.
Proof. split; reflexivity. Qed.

Example includes_example :
  JS.includes "university of technology" "of tech" = true /\
  JS.includes "university of technology" "tech of" = false.
Proof. split; reflexivity. Qed.

(** ** Stable filtering *)

Section StableFilter.
Context {A : Type} (P : A -> Prop) (f : A -> bool).
Hypothesis f_spec : forall x, f x = true <-> P x.

Lemma filter_StableFilter xs : StableFilter P xs (List.filter f xs).
Proof using f_spec.
  induction xs as [|x xs IH]; simpl; [constructor|].
  destruct (f x) eqn:E.
  - apply SF_keep; [now apply f_spec | exact IH].
  - apply SF_drop; [|exact IH]. rewrite <- f_spec. congruence.
Qed.

Lemma StableFilter_elem_of xs ys :
  StableFilter P xs ys -> forall x, x ∈ ys <-> x ∈ xs /\ P x.
Proof.
  induction 1 as [|x xs ys HP _ IH|x xs ys HP _ IH]; intros y.
  - rewrite elem_of_nil. tauto.
  - rewrite !elem_of_cons, IH. split; [|tauto].
    intros [->|[? ?]]; auto.
  - rewrite elem_of_cons, IH. split; [tauto|].
    intros [[->|?] ?]; [contradiction|auto].
Qed.

Lemma StableFilter_sublist xs ys : StableFilter P xs ys -> sublist ys xs.
Proof. induction 1; [constructor | now apply sublist_skip | now apply sublist_cons]. Qed.

(** The relation determines its output. *)
Lemma StableFilter_functional xs ys zs :
  StableFilter P xs ys -> StableFilter P xs zs -> ys = zs.
Proof.
  intros H. revert zs.
  induction H as [|x xs ys HP _ IH|x xs ys HP _ IH]; intros zs Hz;
    inversion Hz; subst; try contradiction; auto.
  f_equal. auto.
Qed.

End StableFilter.

(** ** The search handlers *)

Lemma matchesPerson_spec Q person :
  matchesPerson (JS.trim (JS.toLowerCase Q)) person = true <-> Matches Q person.
Proof.
  unfold matchesPerson, Matches, fields.
  rewrite trim_toLowerCase, !orb_true_iff, !includes_spec. split.
  - intros [[[[H|H]|H]|H]|H]; eexists; (split; [|exact H]);
      rewrite !elem_of_cons; tauto.
  - intros (f & Hf & H). rewrite !elem_of_cons, elem_of_nil in Hf.
    destruct Hf as [->|[->|[->|[->|[->|[]]]]]]; tauto.
Qed.

Lemma handleSearch_nonempty st :
  JS.trim (searchTerm st) <> "" ->
  handleSearch st =
    st |> setSearchResults
            (List.filter (matchesPerson (JS.trim (JS.toLowerCase (searchTerm st)))) (data st))
       |> setSearchPerformed true.
Proof.
  intros H. apply truthy_spec in H. unfold handleSearch. now rewrite H.
Qed.

Lemma handleSearch_empty st :
  JS.trim (searchTerm st) = "" ->
  handleSearch st = st |> setSearchResults [] |> setSearchPerformed false.
Proof. intros H. unfold handleSearch. now rewrite H. Qed.

(** C1. For a query whose trimmed form is non-empty, the search keeps
    exactly the records of [data] in which the trimmed, lower-cased query is
    a substring of one of the five lower-cased fields, drops every other
    record, and keeps the records in their original order. *)
Theorem handleSearch_exact_partition (st : AppState) :
  JS.trim (searchTerm st) <> "" ->
  let Q := searchTerm st in
  let R := data st in
  let results := searchResults (handleSearch st) in
  StableFilter (Matches Q) R results /\
  (forall p, p ∈ results <-> p ∈ R /\ Matches Q p) /\
  (forall p, p ∈ R -> p ∉ results -> forall f, f ∈ fields p ->
     ~ Substring (JS.toLowerCase (JS.trim Q)) (JS.toLowerCase f)) /\
  sublist results R.
Proof.
  intros Hq Q R results.
  assert (HSF : StableFilter (Matches Q) R results).
  { subst results. rewrite handleSearch_nonempty by exact Hq. simpl.
    apply filter_StableFilter, matchesPerson_spec. }
  pose proof (StableFilter_elem_of _ _ _ HSF) as Hin.
  split; [exact HSF|]. split; [exact Hin|]. split.
  - intros p HR Hnot f Hf Hsub. apply Hnot, Hin. split; [exact HR|].
    now exists f.
  - exact (StableFilter_sublist _ _ _ HSF).
Qed.

Lemma handleSearch_exact_partition_witness :
  let st := typedState "  TECH " in
  JS.trim (searchTerm st) <> "" /\
  StableFilter (Matches (searchTerm st)) (data st) (searchResults (handleSearch st)) /\
  (forall p, p ∈ searchResults (handleSearch st) <->
             p ∈ data st /\ Matches (searchTerm st) p) /\
  (forall p, p ∈ data st -> p ∉ searchResults (handleSearch st) ->
     forall f, f ∈ fields p ->
     ~ Substring (JS.toLowerCase (JS.trim (searchTerm st))) (JS.toLowerCase f)) /\
  sublist (searchResults (handleSearch st)) (data st).
Proof.
  assert (H : JS.trim (searchTerm (typedState "  TECH ")) <> "")
    by (vm_compute; discriminate).
  split; [exact H|].
  exact (handleSearch_exact_partition (typedState "  TECH ") H).
Defined.

(** C4. For a query whose trimmed form is empty, the search stores the
    empty result list and the flag [searchPerformed = false]; the error
    message and the records are left as they were. *)
Theorem handleSearch_empty_query (st : AppState) :
  JS.trim (searchTerm st) = "" ->
  let st' := handleSearch st in
  searchResults st' = [] /\
  searchPerformed st' = false /\
  error st' = error st /\
  data st' = data st.
Proof.
  intros H st'. subst st'. rewrite handleSearch_empty by exact H.
  repeat split.
Qed.

Lemma handleSearch_empty_query_witness :
  let st := run [InputChange "robotics"; ButtonClick; InputChange "   "] fallbackState in
  JS.trim (searchTerm st) = "" /\
  searchResults st <> [] /\ searchPerformed st = true /\
  searchResults (handleSearch st) = [] /\
  searchPerformed (handleSearch st) = false /\
  error (handleSearch st) = error st /\
  data (handleSearch st) = data st.
Proof.
  split; [reflexivity|].
  split; [vm_compute; discriminate|].
  split; [reflexivity|].
  apply (handleSearch_empty_query
           (run [InputChange "robotics"; ButtonClick; InputChange "   "] fallbackState)).
  reflexivity.
Defined.

(** C9. The search is a function of the query and the records alone: two
    states with the same query and records get the same ordered results and
    flag, whatever else they hold; the search leaves the records and the
    query untouched, and searching again changes nothing. *)
Theorem handleSearch_pure (st1 st2 : AppState) :
  searchTerm st1 = searchTerm st2 ->
  data st1 = data st2 ->
  searchResults (handleSearch st1) = searchResults (handleSearch st2) /\
  searchPerformed (handleSearch st1) = searchPerformed (handleSearch st2) /\
  data (handleSearch st1) = data st1 /\
  searchTerm (handleSearch st1) = searchTerm st1 /\
  handleSearch (handleSearch st1) = handleSearch st1.
Proof.
  intros HQ HR. unfold handleSearch. rewrite <- HQ, <- HR.
  destruct (negb (JS.truthy (JS.trim (searchTerm st1)))) eqn:E; simpl;
    rewrite ?E; repeat split.
Qed.

Lemma handleSearch_pure_witness :
  let st1 := typedState "learning" in
  let st2 := run [InputChange "robotics"; ButtonClick; InputChange "learning"] fallbackState in
  st1 <> st2 /\
  searchResults (handleSearch st1) = searchResults (handleSearch st2) /\
  searchPerformed (handleSearch st1) = searchPerformed (handleSearch st2) /\
  data (handleSearch st1) = data st1 /\
  searchTerm (handleSearch st1) = searchTerm st1 /\
  handleSearch (handleSearch st1) = handleSearch st1.
Proof.
  split; [vm_compute; discriminate|].
  apply (handleSearch_pure (typedState "learning")
           (run [InputChange "robotics"; ButtonClick; InputChange "learning"] fallbackState));
    reflexivity.
Defined.

(** C10. The input-change handler stores the new value; it empties the
    results and resets [searchPerformed] when the new value is the empty
    string, and for every other value, whitespace-only ones included, it
    leaves the results and the flag as they were. *)
Theorem handleSearchChange_clears_iff_empty (value : string) (st : AppState) :
  let st' := handleSearchChange value st in
  searchTerm st' = value /\
  (value = "" -> searchResults st' = [] /\ searchPerformed st' = false) /\
  (value <> "" ->
     searchResults st' = searchResults st /\ searchPerformed st' = searchPerformed st) /\
  (value <> "" -> JS.trim value = "" ->
     searchResults st' = searchResults st /\ searchPerformed st' = searchPerformed st).
Proof.
  unfold handleSearchChange.
  destruct (String.eqb_spec value "") as [->|Hne]; simpl.
  - repeat split; intros; congruence.
  - repeat split; intros; congruence.
Qed.

Lemma handleSearchChange_clears_iff_empty_witness :
  let st := searchedState "machine learning" in
  searchResults st <> [] /\ searchPerformed st = true /\
  JS.trim "  " = "" /\
  (searchResults (handleSearchChange "  " st) = searchResults st /\
   searchPerformed (handleSearchChange "  " st) = true) /\
  (searchResults (handleSearchChange "" st) = [] /\
   searchPerformed (handleSearchChange "" st) = false).
Proof.
  split; [vm_compute; discriminate|].
  split; [reflexivity|].
  split; [reflexivity|].
  split.
  - apply (handleSearchChange_clears_iff_empty "  " (searchedState "machine learning")).
    + discriminate.
    + reflexivity.
  - apply (handleSearchChange_clears_iff_empty "" (searchedState "machine learning")).
    reflexivity.
Defined.

(** C7. On the fallback records the query "University of Technology"
    returns exactly John Smith and James Brown, and each of them matches in
    its affiliation and in no other field; the earlier handler, which does
    not look at affiliations, returns nothing for the same query. *)
Theorem search_university_of_technology :
  let Q := "University of Technology" in
  let q := JS.toLowerCase (JS.trim Q) in
  let results := searchResults (searchedState Q) in
  data (typedState Q) = sampleData /\
  results = [johnSmith; jamesBrown] /\
  name <$> results = ["John Smith"; "James Brown"] /\
  Forall (fun p => JS.includes (JS.toLowerCase (affiliation p)) q = true /\
                   JS.includes (JS.toLowerCase (name p)) q = false /\
                   JS.includes (JS.toLowerCase (keyword1 p)) q = false /\
                   JS.includes (JS.toLowerCase (keyword2 p)) q = false /\
                   JS.includes (JS.toLowerCase (keyword3 p)) q = false) results /\
  searchResults (Earlier.handleSearch (typedState Q)) = [] /\
  searchPerformed (Earlier.handleSearch (typedState Q)) = true.
Proof.
  vm_compute. repeat split. repeat constructor.
Qed.

(** C8. On the fallback records the query "machine learning" returns John
    Smith, Aisha Johnson and James Brown, in the order in which they occur
    in the record list, and sets [searchPerformed]. *)
Theorem search_machine_learning :
  let st := searchedState "machine learning" in
  data (typedState "machine learning") = sampleData /\
  searchResults st = [johnSmith; aishaJohnson; jamesBrown] /\
  name <$> searchResults st = ["John Smith"; "Aisha Johnson"; "James Brown"] /\
  (sampleData !! 0 = Some johnSmith /\
   sampleData !! 3 = Some aishaJohnson /\
   sampleData !! 8 = Some jamesBrown) /\
  searchPerformed st = true.
Proof.
  vm_compute. repeat split.
Qed.

Example search_no_match :
  searchResults (searchedState "zzz-no-match") = [] /\
  searchPerformed (searchedState "zzz-no-match") = true.
Proof. split; reflexivity. Qed.

(** ** Counting distinct values *)

Lemma map_fmap {A B : Type} (f : A -> B) (l : list A) : map f l = f <$> l.
Proof. induction l as [|x l IH]; simpl; [reflexivity | now rewrite IH]. Qed.

Lemma setSize_CountOf (xs : list string) :
  CountOf (fun x => x ∈ xs) (JS.setSize xs).
Proof.
  exists (elements (list_to_set xs : gset string)). split; [apply NoDup_elements|].
  split; [|reflexivity].
  intros x. now rewrite elem_of_elements, elem_of_list_to_set.
Qed.

Lemma CountOf_ext (P Q : string -> Prop) (n : nat) :
  (forall x, P x <-> Q x) -> CountOf P n -> CountOf Q n.
Proof.
  intros HPQ (ys & Hnd & Hys & Hlen). exists ys. split; [exact Hnd|].
  split; [|exact Hlen]. intros x. now rewrite Hys.
Qed.

Lemma CountOf_unique (P : string -> Prop) (n m : nat) :
  CountOf P n -> CountOf P m -> n = m.
Proof.
  intros (ys & Hnd & Hys & <-) (zs & Hnd' & Hzs & <-).
  apply Permutation_length, NoDup_Permutation; [exact Hnd | exact Hnd' |].
  intros x. now rewrite Hys, Hzs.
Qed.

Lemma elem_of_map_iff (f : Person -> string) (R : list Person) (x : string) :
  x ∈ map f R <-> exists p, p ∈ R /\ f p = x.
Proof.
  rewrite list_elem_of_In, in_map_iff.
  split; intros (p & H1 & H2); exists p; [rewrite list_elem_of_In|rewrite <- list_elem_of_In]; auto.
Qed.

Lemma names_count (R : list Person) :
  CountOf (IsName R) (JS.setSize (map name R)).
Proof. eapply CountOf_ext; [|apply setSize_CountOf]. intros x. apply elem_of_map_iff. Qed.

Lemma affiliations_count (R : list Person) :
  CountOf (IsAffiliation R) (JS.setSize (map affiliation R)).
Proof. eapply CountOf_ext; [|apply setSize_CountOf]. intros x. apply elem_of_map_iff. Qed.

Lemma keywords_count (R : list Person) :
  CountOf (IsKeyword R)
    (JS.setSize (List.filter JS.truthy
                   (map keyword1 R ++ map keyword2 R ++ map keyword3 R))).
Proof.
  eapply CountOf_ext; [|apply setSize_CountOf]. intros x. unfold IsKeyword.
  rewrite list_elem_of_In, filter_In, truthy_spec, <- list_elem_of_In.
  rewrite !elem_of_app, !elem_of_map_iff. split.
  - intros [[(p & ? & ?)|[(p & ? & ?)|(p & ? & ?)]] Hne]; (split; [exact Hne|]);
      exists p; auto.
  - intros [Hne (p & Hp & [H|[H|H]])]; (split; [|exact Hne]); eauto.
Qed.

(** ** User events never touch the records or the statistics *)

Lemma step_data_stats (st : AppState) (ev : Event) :
  data (step st ev) = data st /\ stats (step st ev) = stats st /\
  error (step st ev) = error st /\ isLoading (step st ev) = isLoading st.
Proof.
  destruct ev as [value| |key]; simpl.
  - unfold handleSearchChange. destruct (String.eqb value ""); repeat split.
  - unfold handleSearch.
    destruct (negb (JS.truthy (JS.trim (searchTerm st)))); repeat split.
  - unfold handleKeyPress, handleSearch. destruct (String.eqb key "Enter");
      [destruct (negb (JS.truthy (JS.trim (searchTerm st))))|]; repeat split.
Qed.

Lemma run_data_stats (evs : list Event) : forall st,
  data (run evs st) = data st /\ stats (run evs st) = stats st.
Proof.
  unfold run. induction evs as [|ev evs IH]; intros st; simpl; [auto|].
  destruct (IH (step st ev)) as [-> ->].
  destruct (step_data_stats st ev) as (-> & -> & _). auto.
Qed.

(** ** Loading *)

Lemma loadData_success parse fetched rows st :
  LoadSucceeds parse fetched rows ->
  loadData parse fetched st = onComplete rows st.
Proof.
  intros (response & csvText & -> & Hok & Htext & Hhtml & Hparse).
  unfold_load. rewrite Hok. cbn [negb]. now rewrite Htext, Hhtml, Hparse.
Qed.

Lemma loadData_caught parse fetched kind st :
  LoadFailure parse fetched kind -> kind <> ParseFailure ->
  exists reason, loadData parse fetched st = onCatch reason st.
Proof.
  intros H Hk.
  destruct H as [message|response Hok|response message Hok Htext
                |response csvText Hok Htext Hhtml
                |response csvText err Hok Htext Hhtml Hparse]; unfold_load.
  - now exists message.
  - rewrite Hok. cbn [negb]. eauto.
  - rewrite Hok. cbn [negb]. rewrite Htext. eauto.
  - rewrite Hok. cbn [negb]. rewrite Htext, Hhtml. eauto.
  - congruence.
Qed.

Lemma loadData_parse_error parse response csvText err st :
  ok response = true -> text response = Normal csvText ->
  JS.startsWith (JS.trim csvText) "<!DOCTYPE html>" = false ->
  parse csvText = ParseError err ->
  loadData parse (Normal response) st = onError st.
Proof.
  intros Hok Htext Hhtml Hparse.
  unfold_load. rewrite Hok. cbn [negb]. now rewrite Htext, Hhtml, Hparse.
Qed.

Lemma toPerson_columns (row : gmap string string) :
  ColumnValue row "name" (name (toPerson row)) /\
  ColumnValue row "affiliation" (affiliation (toPerson row)) /\
  ColumnValue row "keyword1" (keyword1 (toPerson row)) /\
  ColumnValue row "keyword2" (keyword2 (toPerson row)) /\
  ColumnValue row "keyword3" (keyword3 (toPerson row)).
Proof.
  unfold ColumnValue, toPerson; simpl. rewrite !orEmpty_spec.
  repeat split; match goal with |- context [row !! ?k] => now destruct (row !! k) end.
Qed.

(** C5. After a successful load the record list is the parsed one, and the
    stored statistics are the number of distinct names, the number of
    distinct non-empty strings among the three keyword fields, and the
    number of distinct affiliations of that list; no sequence of user
    events changes the statistics or the records. *)
Theorem load_success_stats parse fetched rows (st : AppState) :
  LoadSucceeds parse fetched rows ->
  let st' := loadData parse fetched st in
  let R := data st' in
  R = map toPerson rows /\
  CountOf (IsName R) (expertCount (stats st')) /\
  CountOf (IsKeyword R) (expertiseCount (stats st')) /\
  CountOf (IsAffiliation R) (affiliationCount (stats st')) /\
  (forall evs, stats (run evs st') = stats st' /\ data (run evs st') = data st').
Proof.
  intros H st' R. subst R st'. rewrite (loadData_success _ _ _ _ H). simpl.
  split; [reflexivity|].
  split; [apply names_count|].
  split; [apply keywords_count|].
  split; [apply affiliations_count|].
  intros evs. destruct (run_data_stats evs (onComplete rows st)) as [-> ->]. auto.
Qed.

Lemma load_success_stats_witness :
  let fetched := Normal (okResponse "name,affiliation,keyword1,keyword2,keyword3") in
  let st' := loadData parseTwoRows fetched initialState in
  LoadSucceeds parseTwoRows fetched twoRows /\
  stats st' = {| expertCount := 1; expertiseCount := 2; affiliationCount := 2 |} /\
  data st' = map toPerson twoRows /\
  CountOf (IsName (data st')) (expertCount (stats st')) /\
  CountOf (IsKeyword (data st')) (expertiseCount (stats st')) /\
  CountOf (IsAffiliation (data st')) (affiliationCount (stats st')) /\
  (forall evs, stats (run evs st') = stats st' /\ data (run evs st') = data st').
Proof.
  assert (H : LoadSucceeds parseTwoRows
                (Normal (okResponse "name,affiliation,keyword1,keyword2,keyword3"))
                twoRows).
  { eexists _, _. repeat split; reflexivity. }
  split; [exact H|].
  split; [vm_compute; reflexivity|].
  exact (load_success_stats parseTwoRows _ twoRows initialState H).
Defined.

(** Whatever rows the parser delivers, the loaded list has one record per
    delivered row, in the same order; each field is read from the column of
    that name and is the empty string when the column is absent from the
    row or empty in it. *)
Lemma loaded_records_follow_rows parse fetched rows (st : AppState) :
  LoadSucceeds parse fetched rows ->
  let R := data (loadData parse fetched st) in
  length R = length rows /\
  forall i row, rows !! i = Some row ->
    exists person, R !! i = Some person /\
      ColumnValue row "name" (name person) /\
      ColumnValue row "affiliation" (affiliation person) /\
      ColumnValue row "keyword1" (keyword1 person) /\
      ColumnValue row "keyword2" (keyword2 person) /\
      ColumnValue row "keyword3" (keyword3 person).
Proof.
  intros H R. subst R. rewrite (loadData_success _ _ _ _ H). simpl.
  rewrite map_fmap. split; [apply length_fmap|].
  intros i row Hrow. exists (toPerson row). split.
  - now rewrite list_lookup_fmap, Hrow.
  - apply toPerson_columns.
Qed.

(** C3. After a fallback the stored statistics are the constants 10, 24 and
    7, while the ten sample records hold 10 distinct names, 27 distinct
    non-empty keywords and 8 distinct affiliations: the stored keyword and
    affiliation counts are not the counts of the sample records. *)
Theorem fallback_stats_are_constants :
  data fallbackState = sampleData /\
  stats fallbackState =
    {| expertCount := 10; expertiseCount := 24; affiliationCount := 7 |} /\
  stats (onComplete (map rowOf sampleData) initialState) =
    {| expertCount := 10; expertiseCount := 27; affiliationCount := 8 |} /\
  CountOf (IsName sampleData) 10 /\
  CountOf (IsKeyword sampleData) 27 /\
  CountOf (IsAffiliation sampleData) 8 /\
  ~ CountOf (IsKeyword sampleData) (expertiseCount (stats fallbackState)) /\
  ~ CountOf (IsAffiliation sampleData) (affiliationCount (stats fallbackState)).
Proof.
  assert (Hn : CountOf (IsName sampleData) 10) by apply (names_count sampleData).
  assert (Hk : CountOf (IsKeyword sampleData) 27) by apply (keywords_count sampleData).
  assert (Ha : CountOf (IsAffiliation sampleData) 8)
    by apply (affiliations_count sampleData).
  split; [reflexivity|]. split; [reflexivity|]. split; [vm_compute; reflexivity|].
  split; [exact Hn|]. split; [exact Hk|]. split; [exact Ha|]. split.
  - intros H. pose proof (CountOf_unique _ _ _ Hk H) as E. vm_compute in E. discriminate.
  - intros H. pose proof (CountOf_unique _ _ _ Ha H) as E. vm_compute in E. discriminate.
Qed.


(** * Further properties of the handlers and the loader *)

(** ** More on strings *)

Lemma append_nil_r s : s +:+ "" = s.
Proof. induction s as [|a s IH]; [reflexivity|]. now rewrite append_cons, IH. Qed.

Lemma append_assoc s t u : (s +:+ t) +:+ u = s +:+ t +:+ u.
Proof.
  induction s as [|a s IH]; [reflexivity|]. now rewrite !append_cons, IH.
Qed.

Lemma length_append s t :
  String.length (s +:+ t) = String.length s + String.length t.
Proof.
  induction s as [|a s IH]; [reflexivity|]. rewrite append_cons. simpl. now rewrite IH.
Qed.

Lemma Substring_trans p q s : Substring p q -> Substring q s -> Substring p s.
Proof.
  intros (a & b & ->) (c & d & ->). exists (c +:+ a), (b +:+ d).
  now rewrite !append_assoc.
Qed.

Lemma Substring_length p s : Substring p s -> String.length p <= String.length s.
Proof. intros (a & b & ->). rewrite !length_append. lia. Qed.

Lemma trimStart_suffix s : exists pre, s = pre +:+ JS.trimStart s.
Proof.
  induction s as [|a s [pre IH]]; simpl; [now exists ""|].
  destruct (JS.isWhiteSpace a); [|now exists ""].
  exists (String a pre). rewrite append_cons. congruence.
Qed.

Lemma trimEnd_prefix s : exists post, s = JS.trimEnd s +:+ post.
Proof.
  induction s as [|a s [post IH]]; simpl; [now exists ""|].
  destruct (JS.trimEnd s) as [|d r].
  - destruct (JS.isWhiteSpace a).
    + now exists (String a s).
    + exists s. now rewrite append_cons.
  - exists post. rewrite append_cons. congruence.
Qed.

Lemma trim_Substring s : Substring (JS.trim s) s.
Proof.
  destruct (trimStart_suffix s) as [pre Hpre].
  destruct (trimEnd_prefix (JS.trimStart s)) as [post Hpost].
  exists pre, post. unfold JS.trim. now rewrite <- Hpost.
Qed.

Lemma toLowerCase_empty s : JS.toLowerCase s = "" <-> s = "".
Proof. destruct s; simpl; split; congruence. Qed.

Lemma filter_sublist_mono {A : Type} (f g : A -> bool) (l : list A) :
  (forall x, f x = true -> g x = true) ->
  sublist (List.filter f l) (List.filter g l).
Proof.
  intros Hfg. induction l as [|x l IH]; simpl; [constructor|].
  destruct (f x) eqn:Ef.
  - rewrite (Hfg x Ef). now apply sublist_skip.
  - destruct (g x); [now apply sublist_cons | exact IH].
Qed.

Lemma elem_of_List_filter {A : Type} (f : A -> bool) (l : list A) (x : A) :
  x ∈ List.filter f l <-> x ∈ l /\ f x = true.
Proof. now rewrite !list_elem_of_In, filter_In. Qed.

(** ** How searches relate to one another *)

Lemma matchesPerson_mono q1 q2 person :
  Substring q1 q2 ->
  matchesPerson q2 person = true -> matchesPerson q1 person = true.
Proof.
  intros Hq. unfold matchesPerson. rewrite !orb_true_iff, !includes_spec.
  pose proof (Substring_trans q1 q2) as T. intuition eauto.
Qed.

Lemma truthy_trim_toLowerCase Q1 Q2 :
  JS.toLowerCase (JS.trim Q1) = JS.toLowerCase (JS.trim Q2) ->
  JS.truthy (JS.trim Q1) = JS.truthy (JS.trim Q2).
Proof.
  intros H. destruct (JS.trim Q1), (JS.trim Q2); simpl in *; congruence.
Qed.

(** X1. Narrowing: when the normalised form of one non-blank query occurs
    inside the normalised form of another, every record found for the
    longer query is found for the shorter one, in the same order. *)
Theorem handleSearch_narrowing (st1 st2 : AppState) :
  data st1 = data st2 ->
  JS.trim (searchTerm st1) <> "" ->
  Substring (JS.toLowerCase (JS.trim (searchTerm st1)))
            (JS.toLowerCase (JS.trim (searchTerm st2))) ->
  sublist (searchResults (handleSearch st2)) (searchResults (handleSearch st1)).
Proof.
  intros HR H1 Hsub. rewrite (handleSearch_nonempty st1 H1). simpl.
  destruct (JS.trim (searchTerm st2)) eqn:E2.
  - rewrite (handleSearch_empty st2 E2). simpl. apply sublist_nil_l.
  - rewrite (handleSearch_nonempty st2) by (rewrite E2; discriminate).
    simpl. rewrite HR. apply filter_sublist_mono. intros p.
    apply matchesPerson_mono. rewrite !trim_toLowerCase, E2. exact Hsub.
Qed.

Lemma handleSearch_narrowing_witness :
  let st1 := typedState " Learn" in
  let st2 := typedState "machine LEARNING" in
  searchResults (handleSearch st2) = [johnSmith; aishaJohnson; jamesBrown] /\
  length (searchResults (handleSearch st1)) = 3 /\
  sublist (searchResults (handleSearch st2)) (searchResults (handleSearch st1)).
Proof.
  split; [vm_compute; reflexivity|]. split; [vm_compute; reflexivity|].
  apply (handleSearch_narrowing (typedState " Learn") (typedState "machine LEARNING")).
  - reflexivity.
  - vm_compute. discriminate.
  - exists "machine ", "ing". vm_compute. reflexivity.
Defined.

(** X2. Queries that agree after trimming and lower-casing give the same
    results and the same flag on the same records. *)
Theorem handleSearch_normalised_query (st1 st2 : AppState) :
  data st1 = data st2 ->
  JS.toLowerCase (JS.trim (searchTerm st1)) = JS.toLowerCase (JS.trim (searchTerm st2)) ->
  searchResults (handleSearch st1) = searchResults (handleSearch st2) /\
  searchPerformed (handleSearch st1) = searchPerformed (handleSearch st2).
Proof.
  intros HR HQ. unfold handleSearch.
  rewrite !trim_toLowerCase, <- HQ, <- HR, <- (truthy_trim_toLowerCase _ _ HQ).
  now destruct (negb (JS.truthy (JS.trim (searchTerm st1)))).
Qed.

Lemma handleSearch_normalised_query_witness :
  let st1 := typedState "  RoBoTiCs " in
  let st2 := typedState "robotics" in
  searchTerm st1 <> searchTerm st2 /\
  length (searchResults (handleSearch st1)) = 1 /\
  searchResults (handleSearch st1) = searchResults (handleSearch st2) /\
  searchPerformed (handleSearch st1) = searchPerformed (handleSearch st2).
Proof.
  split; [vm_compute; discriminate|]. split; [vm_compute; reflexivity|].
  apply (handleSearch_normalised_query (typedState "  RoBoTiCs ") (typedState "robotics"));
    reflexivity.
Defined.

(** X3. Every record of the directory is found by searching for any one of
    its own fields, as long as that field is not blank. *)
Theorem handleSearch_finds_own_field (st : AppState) (p : Person) (f : string) :
  p ∈ data st ->
  f ∈ fields p ->
  JS.trim f <> "" ->
  searchTerm st = f ->
  p ∈ searchResults (handleSearch st) /\ searchPerformed (handleSearch st) = true.
Proof.
  intros Hp Hf Hne HQ.
  assert (Hq : JS.trim (searchTerm st) <> "") by now rewrite HQ.
  rewrite (handleSearch_nonempty st Hq). simpl. split; [|reflexivity].
  apply elem_of_List_filter. split; [exact Hp|].
  apply matchesPerson_spec. exists f. split; [exact Hf|].
  rewrite HQ, <- trim_toLowerCase. apply trim_Substring.
Qed.

Lemma handleSearch_finds_own_field_witness :
  let st := typedState "Global Analytics" in
  aishaJohnson ∈ data st /\
  aishaJohnson ∈ searchResults (handleSearch st) /\
  searchPerformed (handleSearch st) = true.
Proof.
  assert (Hp : aishaJohnson ∈ data (typedState "Global Analytics"))
    by (vm_compute; do 3 apply list_elem_of_further; apply list_elem_of_here).
  split; [exact Hp|].
  apply (handleSearch_finds_own_field (typedState "Global Analytics")
           aishaJohnson "Global Analytics").
  - exact Hp.
  - vm_compute. apply list_elem_of_further, list_elem_of_here.
  - vm_compute. discriminate.
  - reflexivity.
Defined.

(** X4. The handler that also looks at affiliations finds everything the
    earlier handler finds, in the same order and with the same flag; what it
    finds in addition are exactly the records of the directory whose
    affiliation contains the normalised, non-blank query. *)
Theorem handleSearch_extends_earlier (st : AppState) :
  let q := JS.toLowerCase (JS.trim (searchTerm st)) in
  sublist (searchResults (Earlier.handleSearch st)) (searchResults (handleSearch st)) /\
  searchPerformed (Earlier.handleSearch st) = searchPerformed (handleSearch st) /\
  forall p, p ∈ searchResults (handleSearch st) <->
            p ∈ searchResults (Earlier.handleSearch st) \/
            (p ∈ data st /\ JS.trim (searchTerm st) <> "" /\
             Substring q (JS.toLowerCase (affiliation p))).
Proof.
  intros q. subst q. unfold handleSearch, Earlier.handleSearch.
  destruct (JS.truthy (JS.trim (searchTerm st))) eqn:E; simpl.
  - apply truthy_spec in E.
    split; [|split; [reflexivity|]].
    + apply filter_sublist_mono. intros p.
      unfold matchesPerson, Earlier.matchesPerson. rewrite !orb_true_iff. tauto.
    + intros p. rewrite !elem_of_List_filter.
      unfold matchesPerson, Earlier.matchesPerson.
      rewrite !orb_true_iff, <- includes_spec, trim_toLowerCase. tauto.
  - split; [constructor|]. split; [reflexivity|].
    intros p. rewrite elem_of_nil.
    assert (JS.trim (searchTerm st) = "")
      by (destruct (JS.trim (searchTerm st)); [reflexivity|discriminate]).
    tauto.
Qed.

(** ** What every load does *)

Lemma load_cases parse fetched :
  (exists rows, LoadSucceeds parse fetched rows) \/
  (exists kind, LoadFailure parse fetched kind).
Proof.
  destruct fetched as [response|message]; [|right; eexists; constructor].
  destruct (ok response) eqn:Hok; [|right; eexists; apply LF_status; eauto].
  destruct (text response) as [csvText|message] eqn:Htext;
    [|right; eexists; eapply LF_body; eauto].
  destruct (JS.startsWith (JS.trim csvText) "<!DOCTYPE html>") eqn:Hhtml;
    [right; eexists; eapply LF_html; eauto|].
  destruct (parse csvText) as [rows|err] eqn:Hparse.
  - left. exists rows, response, csvText. auto.
  - right. eexists. eapply LF_parse; eauto.
Qed.

Lemma LoadSucceeds_not_LoadFailure parse fetched rows kind :
  LoadSucceeds parse fetched rows -> LoadFailure parse fetched kind -> False.
Proof.
  intros (response & csvText & -> & Hok & Htext & Hhtml & Hparse) HF.
  inversion HF; subst; congruence.
Qed.

Lemma loadData_shape parse fetched st :
  (exists rows, LoadSucceeds parse fetched rows /\
                loadData parse fetched st = onComplete rows st) \/
  (exists reason, loadData parse fetched st = onCatch reason st) \/
  loadData parse fetched st = onError st.
Proof.
  destruct (load_cases parse fetched) as [[rows H]|[kind H]].
  - left. exists rows. split; [exact H | now apply loadData_success].
  - right.
    destruct H as [message|response Hok|response message Hok Htext
                  |response csvText Hok Htext Hhtml
                  |response csvText err Hok Htext Hhtml Hparse] eqn:E.
    5: { right. now apply (loadData_parse_error _ _ csvText err). }
    all: left; match type of E with _ = ?pf =>
           exact (loadData_caught _ _ _ st pf ltac:(discriminate))
         end.
Qed.

Lemma loadData_search_cells parse fetched st :
  searchTerm (loadData parse fetched st) = searchTerm st /\
  searchResults (loadData parse fetched st) = searchResults st /\
  searchPerformed (loadData parse fetched st) = searchPerformed st.
Proof.
  destruct (loadData_shape parse fetched st) as [(rows & _ & ->)|[[reason ->]| ->]];
    repeat split.
Qed.

(** X5. Whatever the fetch and the parser do, the load ends the loading
    state and leaves the query, the results and the search flag alone. *)
Theorem loadData_settles parse fetched (st : AppState) :
  let st' := loadData parse fetched st in
  isLoading st' = false /\
  searchTerm st' = searchTerm st /\
  searchResults st' = searchResults st /\
  searchPerformed st' = searchPerformed st.
Proof.
  split; [|apply loadData_search_cells].
  destruct (loadData_shape parse fetched st) as [(rows & _ & ->)|[[reason ->]| ->]];
    reflexivity.
Qed.

(** X6. Starting without an error message, the load leaves the message
    null exactly when it succeeds: every failure, of the fetch, of the
    status, of the body or of the parser, stores a message. *)
Theorem loadData_error_null_iff_success parse fetched (st : AppState) :
  error st = None ->
  (error (loadData parse fetched st) = None <->
   exists rows, LoadSucceeds parse fetched rows).
Proof.
  intros Hst. split.
  - intros Herr.
    destruct (loadData_shape parse fetched st) as [(rows & H & _)|[[reason E]|E]];
      [now exists rows|rewrite E in Herr; discriminate..].
  - intros [rows H]. now rewrite (loadData_success _ _ _ st H).
Qed.

Lemma loadData_error_null_iff_success_witness :
  let fetched := Normal (okResponse "name,affiliation") in
  error (loadData parseTwoRows fetched initialState) = None /\
  (exists rows, LoadSucceeds parseTwoRows fetched rows) /\
  error (loadData parseFails fetched initialState) <> None.
Proof.
  pose proof (loadData_error_null_iff_success parseTwoRows
                (Normal (okResponse "name,affiliation")) initialState eq_refl) as [H1 H2].
  split; [reflexivity|]. split; [apply H1; reflexivity|].
  vm_compute. discriminate.
Defined.

(** X7. The final loader does what the intermediate loader does and, on
    top of it, fills the statistics: both leave the same records, message,
    loading flag, query, results and search flag, and the intermediate one
    never touches the statistics. *)
Theorem loadData_extends_middle parse fetched (st : AppState) :
  let final := loadData parse fetched st in
  let middle := Middle.loadData parse fetched st in
  final = setStats (stats final) middle /\ stats middle = stats st.
Proof.
  unfold loadData, tryLoad, Middle.loadData, Middle.tryLoad, bind.
  destruct fetched as [response|message]; [|now destruct st].
  destruct (ok response); cbn [negb]; [|now destruct st].
  destruct (text response) as [csvText|message]; [|now destruct st].
  destruct (JS.startsWith (JS.trim csvText) "<!DOCTYPE html>"); [now destruct st|].
  destruct (parse csvText); now destruct st.
Qed.

(** ** Invariants of the running component *)

Lemma handleSearch_Consistent st : Consistent (handleSearch st).
Proof.
  unfold Consistent, handleSearch.
  destruct (negb (JS.truthy (JS.trim (searchTerm st)))); simpl.
  - split; [apply sublist_nil_l | reflexivity].
  - split; [|discriminate].
    apply (StableFilter_sublist (fun p => matchesPerson
             (JS.trim (JS.toLowerCase (searchTerm st))) p = true)).
    apply filter_StableFilter. reflexivity.
Qed.

Lemma step_Consistent st ev : Consistent st -> Consistent (step st ev).
Proof.
  intros [Hsub Hflag]. destruct ev as [value| |key]; simpl.
  - unfold handleSearchChange. destruct (String.eqb value ""); simpl.
    + split; [apply sublist_nil_l | reflexivity].
    + split; assumption.
  - apply handleSearch_Consistent.
  - unfold handleKeyPress. destruct (String.eqb key "Enter");
      [apply handleSearch_Consistent | split; assumption].
Qed.

Lemma run_Consistent evs : forall st, Consistent st -> Consistent (run evs st).
Proof.
  unfold run. induction evs as [|ev evs IH]; intros st H; simpl; [exact H|].
  apply IH, step_Consistent, H.
Qed.

(** X8. In every state the component reaches after mounting, through any
    load outcome and any sequence of user events, the results held are
    records of the directory in directory order, there are no more results
    than records, and results are held only when a search was performed. *)
Theorem reachable_results_consistent parse fetched (evs : list Event) :
  let st := run evs (loadData parse fetched initialState) in
  sublist (searchResults st) (data st) /\
  length (searchResults st) <= length (data st) /\
  (searchResults st <> [] -> searchPerformed st = true).
Proof.
  intros st.
  assert (H : Consistent st).
  { apply run_Consistent.
    destruct (loadData_search_cells parse fetched initialState) as (_ & Hres & Hflag).
    unfold Consistent. rewrite Hres. split; [apply sublist_nil_l | reflexivity]. }
  destruct H as [Hsub Hflag]. split; [exact Hsub|].
  split; [now apply sublist_length|].
  intros Hne. destruct (searchPerformed st); [reflexivity|].
  now destruct Hne; apply Hflag.
Qed.

(** X9. Key presses other than Enter do nothing and Enter acts as a click
    on the button: an event sequence and its resolved form lead to the same
    state. *)
Theorem run_canonical (evs : list Event) : forall st : AppState,
  run (canonical evs) st = run evs st.
Proof.
  unfold run, canonical. induction evs as [|ev evs IH]; intros st; simpl; [reflexivity|].
  rewrite fold_left_app, IH. f_equal.
  destruct ev as [value| |key]; simpl; [reflexivity..|].
  unfold handleKeyPress. now destruct (String.eqb key "Enter").
Qed.

(** ** The row mapper *)

Lemma toPerson_ext (row1 row2 : gmap string string) :
  (forall c, c ∈ columns -> JS.orEmpty (row1 !! c) = JS.orEmpty (row2 !! c)) ->
  toPerson row1 = toPerson row2.
Proof.
  intros H. unfold toPerson.
  f_equal; apply H; unfold columns; rewrite !elem_of_cons; tauto.
Qed.

(** X10. Columns other than the five named ones are ignored: adding such a
    column to a row, or removing it, does not change the record. *)
Theorem toPerson_ignores_extra_columns (row : gmap string string) (k v : string) :
  k ∉ columns ->
  toPerson (<[k:=v]> row) = toPerson row /\
  toPerson (delete k row) = toPerson row.
Proof.
  intros Hk. split; apply toPerson_ext; intros c Hc;
    assert (k <> c) by (intros ->; contradiction).
  - now rewrite lookup_insert_ne.
  - now rewrite lookup_delete_ne.
Qed.

Lemma toPerson_ignores_extra_columns_witness :
  let row := rowOf aishaJohnson in
  toPerson row = aishaJohnson /\
  toPerson (<["email":="aisha@example.org"]> row) = toPerson row /\
  toPerson (delete "email" row) = toPerson row.
Proof.
  split; [vm_compute; reflexivity|].
  apply (toPerson_ignores_extra_columns (rowOf aishaJohnson) "email" "aisha@example.org").
  unfold columns. rewrite !elem_of_cons, elem_of_nil.
  intros [H|[H|[H|[H|[H|[]]]]]]; discriminate H.
Defined.

(** X11. An empty cell and a missing column are the same to the mapper:
    a row in which a column is empty and the row without that column give
    the same record. *)
Theorem toPerson_empty_cell_is_missing (row : gmap string string) (c : string) :
  toPerson (<[c:=""]> row) = toPerson (delete c row).
Proof.
  apply toPerson_ext. intros c' _. destruct (decide (c = c')) as [->|Hne].
  - now rewrite lookup_insert_eq, lookup_delete_eq.
  - now rewrite lookup_insert_ne, lookup_delete_ne.
Qed.

(** ** The statistics of a loaded directory *)

Lemma setSize_le (xs : list string) : JS.setSize xs <= length xs.
Proof.
  unfold JS.setSize, size, set_size. simpl.
  apply submseteq_length, NoDup_submseteq; [apply NoDup_elements|].
  intros x. now rewrite elem_of_elements, elem_of_list_to_set.
Qed.

Lemma setSize_zero (xs : list string) : JS.setSize xs = 0 <-> xs = [].
Proof.
  split; [|now intros ->].
  unfold JS.setSize. intros H%size_empty_inv. destruct xs as [|x xs]; [reflexivity|].
  exfalso. apply (not_elem_of_empty (C:=gset string) x). rewrite <- H.
  apply elem_of_list_to_set. left.
Qed.

(** X12. After a successful load each count is bounded by the directory:
    there are at most as many experts and affiliations as records and at
    most three keywords per record, and the expert and affiliation counts
    are zero only for an empty directory. *)
Theorem load_success_stats_bounds parse fetched rows (st : AppState) :
  LoadSucceeds parse fetched rows ->
  let st' := loadData parse fetched st in
  let n := length (data st') in
  n = length rows /\
  expertCount (stats st') <= n /\
  affiliationCount (stats st') <= n /\
  expertiseCount (stats st') <= 3 * n /\
  (expertCount (stats st') = 0 <-> n = 0) /\
  (affiliationCount (stats st') = 0 <-> n = 0).
Proof.
  intros H st' n. subst n st'. rewrite (loadData_success _ _ _ st H). simpl.
  set (R := map toPerson rows).
  assert (Hlen : forall f : Person -> string, length (map f R) = length R)
    by (intros f; apply length_map).
  assert (Hnil : forall f : Person -> string, map f R = [] <-> length R = 0).
  { intros f. rewrite <- (Hlen f). split; [now intros ->|apply length_zero_iff_nil]. }
  split; [apply length_map|].
  split; [rewrite <- (Hlen name); apply setSize_le|].
  split; [rewrite <- (Hlen affiliation); apply setSize_le|].
  split.
  - etransitivity; [apply setSize_le|].
    etransitivity; [apply filter_length_le|].
    rewrite !length_app, !Hlen. lia.
  - now rewrite !setSize_zero, !Hnil.
Qed.

Lemma load_success_stats_bounds_witness :
  let fetched := Normal (okResponse "name,affiliation,keyword1,keyword2,keyword3") in
  let st' := loadData parseTwoRows fetched initialState in
  length (data st') = 2 /\
  expertCount (stats st') <= length (data st') /\
  affiliationCount (stats st') <= length (data st') /\
  expertiseCount (stats st') <= 3 * length (data st') /\
  (expertCount (stats st') = 0 <-> length (data st') = 0) /\
  (affiliationCount (stats st') = 0 <-> length (data st') = 0).
Proof.
  assert (H : LoadSucceeds parseTwoRows
                (Normal (okResponse "name,affiliation,keyword1,keyword2,keyword3"))
                twoRows).
  { eexists _, _. repeat split; reflexivity. }
  split; [reflexivity|].
  apply (load_success_stats_bounds parseTwoRows _ twoRows initialState H).
Defined.

Lemma setSize_ext (xs ys : list string) :
  (forall x, x ∈ xs <-> x ∈ ys) -> JS.setSize xs = JS.setSize ys.
Proof.
  intros H. apply (CountOf_unique (fun x => x ∈ xs)); [apply setSize_CountOf|].
  eapply CountOf_ext; [|apply setSize_CountOf]. intros x. symmetry. apply H.
Qed.

(** X13. The statistics depend only on which rows the parser delivers, not
    on their order nor on how often a row is repeated. *)
Theorem stats_depend_on_row_set (rows rows' : list (gmap string string))
    (st st' : AppState) :
  (forall row, row ∈ rows <-> row ∈ rows') ->
  stats (onComplete rows st) = stats (onComplete rows' st').
Proof.
  intros H.
  assert (HR : forall (f : Person -> string) x,
             x ∈ map f (map toPerson rows) <-> x ∈ map f (map toPerson rows')).
  { intros f x. rewrite !map_map, !list_elem_of_In, !in_map_iff.
    split; intros (row & E & Hrow); exists row; (split; [exact E|]);
      apply list_elem_of_In, H, list_elem_of_In, Hrow. }
  simpl. f_equal; apply setSize_ext; intros x; [apply HR| |apply HR].
  rewrite !elem_of_List_filter, !elem_of_app, !HR. reflexivity.
Qed.

Lemma stats_depend_on_row_set_witness :
  let rows' := reverse twoRows ++ twoRows in
  length rows' = 4 /\
  stats (onComplete twoRows initialState) = stats (onComplete rows' fallbackState).
Proof.
  split; [reflexivity|].
  apply (stats_depend_on_row_set twoRows (reverse twoRows ++ twoRows)).
  intros row. rewrite elem_of_app, elem_of_reverse. tauto.
Defined.

(** ** Edge behaviour of the search and of the HTML test *)

(** X14. A record is only ever found for a query that is not blank, and
    through a field that is not empty and whose lower-cased form is at
    least as long as the normalised query; so a record whose five fields
    are all empty is never found. *)
Theorem handleSearch_query_fits_a_field (st : AppState) (p : Person) :
  p ∈ searchResults (handleSearch st) ->
  JS.trim (searchTerm st) <> "" /\
  exists f, f ∈ fields p /\ f <> "" /\
            String.length (JS.toLowerCase (JS.trim (searchTerm st)))
              <= String.length (JS.toLowerCase f).
Proof.
  intros Hp.
  assert (Hq : JS.trim (searchTerm st) <> "").
  { intros E. rewrite (handleSearch_empty st E) in Hp. simpl in Hp.
    now apply elem_of_nil in Hp. }
  split; [exact Hq|].
  rewrite (handleSearch_nonempty st Hq) in Hp. simpl in Hp.
  apply elem_of_List_filter in Hp as [_ Hm].
  apply matchesPerson_spec in Hm as (f & Hf & Hsub).
  exists f. split; [exact Hf|]. split; [|now apply Substring_length].
  intros ->. destruct Hsub as (pre & post & E). simpl in E.
  destruct pre as [|c pre]; [|discriminate E]. rewrite append_nil_l in E.
  destruct (JS.trim (searchTerm st)); [congruence|discriminate E].
Qed.

Lemma handleSearch_query_fits_a_field_witness :
  let st := typedState " Sophia Kumar " in
  exists p, p ∈ searchResults (handleSearch st) /\
    JS.trim (searchTerm st) <> "" /\
    exists f, f ∈ fields p /\ f <> "" /\
              String.length (JS.toLowerCase (JS.trim (searchTerm st)))
                <= String.length (JS.toLowerCase f).
Proof.
  exists (mkPerson "Sophia Kumar" "Data Science Center" "statistics"
                   "natural language processing" "sentiment analysis").
  assert (H : mkPerson "Sophia Kumar" "Data Science Center" "statistics"
                       "natural language processing" "sentiment analysis"
              ∈ searchResults (handleSearch (typedState " Sophia Kumar ")))
    by (vm_compute; apply list_elem_of_here).
  split; [exact H|].
  exact (handleSearch_query_fits_a_field (typedState " Sophia Kumar ") _ H).
Defined.

Lemma trimStart_allWhiteSpace pre s :
  allWhiteSpace pre = true -> JS.trimStart (pre +:+ s) = JS.trimStart s.
Proof.
  induction pre as [|c pre IH]; [reflexivity|].
  intros H. rewrite append_cons. simpl in *.
  apply andb_true_iff in H as [Hc Hpre]. rewrite Hc. auto.
Qed.

Lemma trimEnd_app s1 s2 :
  s1 <> "" -> JS.trimEnd s1 = s1 -> JS.trimEnd (s1 +:+ s2) = s1 +:+ JS.trimEnd s2.
Proof.
  induction s1 as [|c s1 IH]; [congruence|]. intros _ H.
  rewrite !append_cons. simpl in *.
  destruct s1 as [|d s1].
  - rewrite !append_nil_l. simpl in H.
    destruct (JS.isWhiteSpace c); [discriminate|]. now destruct (JS.trimEnd s2).
  - assert (Hs1 : JS.trimEnd (String d s1) = String d s1).
    { destruct (JS.trimEnd (String d s1)); [|congruence].
      destruct (JS.isWhiteSpace c); discriminate. }
    rewrite (IH ltac:(discriminate) Hs1). now rewrite append_cons.
Qed.

(** X15. White space in front of the HTML doctype does not hide it: a body
    made of white space, the doctype and anything after it always takes the
    fallback path with the HTML notice, and the CSV parser is never asked. *)
Theorem loadData_html_after_white_space parse (response : Response)
    (pre rest : string) (st : AppState) :
  ok response = true ->
  allWhiteSpace pre = true ->
  text response = Normal (pre +:+ "<!DOCTYPE html>" +:+ rest) ->
  let st' := loadData parse (Normal response) st in
  data st' = sampleData /\
  error st' = Some ("Note: Using sample data. Couldn't load CSV: " +:+
                    "Received HTML instead of CSV data. Check the file path.") /\
  isLoading st' = false.
Proof.
  intros Hok Hpre Htext st'. subst st'.
  assert (Hhtml : JS.startsWith
            (JS.trim (pre +:+ "<!DOCTYPE html>" +:+ rest)) "<!DOCTYPE html>" = true).
  { unfold JS.trim. rewrite (trimStart_allWhiteSpace _ _ Hpre).
    replace (JS.trimStart ("<!DOCTYPE html>" +:+ rest))
      with ("<!DOCTYPE html>" +:+ rest) by reflexivity.
    rewrite trimEnd_app by (discriminate || reflexivity).
    apply startsWith_spec. now exists (JS.trimEnd rest). }
  unfold_load. rewrite Hok. cbn [negb]. rewrite Htext, Hhtml. repeat split.
Qed.

Lemma loadData_html_after_white_space_witness :
  let body := "  " +:+ "<!DOCTYPE html>" +:+ "<html><body>Not Found</body></html>" in
  let st' := loadData parseTwoRows (Normal (okResponse body)) initialState in
  data st' = sampleData /\
  error st' = Some ("Note: Using sample data. Couldn't load CSV: " +:+
                    "Received HTML instead of CSV data. Check the file path.") /\
  isLoading st' = false.
Proof.
  apply (loadData_html_after_white_space parseTwoRows
           (okResponse ("  " +:+ "<!DOCTYPE html>" +:+ "<html><body>Not Found</body></html>"))
           "  " "<html><body>Not Found</body></html>" initialState);
    reflexivity.
Defined.

(** * The record parser on tabular text *)

(** ** Cutting rendered text back into cells *)

Lemma split_nosep sep p : hasUnit sep p = false -> Papa.split sep p = [p].
Proof.
  induction p as [|c p IH]; simpl; [reflexivity|].
  destruct (ascii_dec c sep); [discriminate|]. intros H. now rewrite (IH H).
Qed.

Lemma split_app_sep sep p rest :
  hasUnit sep p = false ->
  Papa.split sep (p +:+ String sep rest) = p :: Papa.split sep rest.
Proof.
  induction p as [|c p IH]; intros H.
  - rewrite append_nil_l. simpl. now destruct (ascii_dec sep sep).
  - rewrite append_cons. simpl in *.
    destruct (ascii_dec c sep); [discriminate|]. now rewrite (IH H).
Qed.

Lemma concat_cons2 sep x y ys :
  String.concat (String sep "") (x :: y :: ys)
  = x +:+ String sep (String.concat (String sep "") (y :: ys)).
Proof. reflexivity. Qed.

Lemma split_concat sep pieces :
  pieces <> [] ->
  Forall (fun p => hasUnit sep p = false) pieces ->
  Papa.split sep (String.concat (String sep "") pieces) = pieces.
Proof.
  induction pieces as [|x xs IH]; [congruence|]. intros _ HF.
  apply Forall_cons in HF as [Hx Hxs]. destruct xs as [|y ys].
  - now apply split_nosep.
  - rewrite concat_cons2, (split_app_sep _ _ _ Hx), IH; [reflexivity|discriminate|exact Hxs].
Qed.

Lemma hasUnit_append sep s t :
  hasUnit sep (s +:+ t) = hasUnit sep s || hasUnit sep t.
Proof.
  induction s as [|c s IH]; [reflexivity|]. rewrite append_cons. simpl.
  now destruct (ascii_dec c sep).
Qed.

Lemma plainCell_hasUnit cell :
  plainCell cell = true -> hasUnit LF cell = false /\ hasUnit "," cell = false.
Proof.
  induction cell as [|c cell IH]; simpl; [auto|].
  intros [Hc Hcell]%andb_true_iff. destruct (IH Hcell) as [-> ->].
  split; destruct (ascii_dec c _) as [->|]; try reflexivity;
    vm_compute in Hc; discriminate.
Qed.

Lemma hasUnit_line cells :
  Forall (fun cell => plainCell cell = true) cells ->
  hasUnit LF (String.concat "," cells) = false.
Proof.
  induction cells as [|x xs IH]; [reflexivity|]. intros HF.
  apply Forall_cons in HF as [Hx Hxs]. destruct (plainCell_hasUnit x Hx) as [HxLF _].
  destruct xs as [|y ys]; [exact HxLF|].
  rewrite concat_cons2, hasUnit_append, HxLF. simpl.
  destruct (ascii_dec "," LF); [discriminate|]. now apply IH.
Qed.

Lemma split_lines table :
  table <> [] -> PlainTable table ->
  map (Papa.split ",") (Papa.split LF (renderTable table)) = table.
Proof.
  intros Hne HP. unfold renderTable. rewrite split_concat.
  - rewrite map_map. induction HP as [|row table [Hrow Hcells] _ IH]; [congruence|].
    simpl. f_equal.
    + apply split_concat; [exact Hrow|].
      eapply Forall_impl; [exact Hcells|]. intros cell H. now apply plainCell_hasUnit.
    + destruct table; [reflexivity|]. apply IH. discriminate.
  - destruct table; [congruence|discriminate].
  - apply Forall_forall. intros line Hline.
    apply list_elem_of_In, in_map_iff in Hline as [row [<- Hrow]].
    apply hasUnit_line. unfold PlainTable in HP. rewrite Forall_forall in HP.
    now apply (HP row), list_elem_of_In.
Qed.

Lemma testEmptyLine_spec cells : Papa.testEmptyLine cells = true <-> cells = [""].
Proof.
  destruct cells as [|[|c cell] [|x xs]]; simpl; split; congruence.
Qed.

Lemma filter_nonEmptyRows table :
  List.filter (fun cells => negb (Papa.testEmptyLine cells)) table = nonEmptyRows table.
Proof.
  unfold nonEmptyRows. induction table as [|row table IH]; [reflexivity|].
  simpl. rewrite filter_cons, IH.
  destruct (Papa.testEmptyLine row) eqn:E; simpl.
  - apply testEmptyLine_spec in E. now rewrite decide_False by auto.
  - rewrite decide_True; [reflexivity|]. rewrite <- testEmptyLine_spec. congruence.
Qed.

Lemma parse_renderTable table columnNames rows :
  PlainTable table ->
  nonEmptyRows table = columnNames :: rows ->
  Papa.parse parseConfig (renderTable table)
  = ParseComplete (map (fun cells => Papa.rowObject columnNames cells ∅) rows).
Proof.
  intros HP Hrows. unfold Papa.parse. simpl skipEmptyLines. simpl header. cbv iota.
  rewrite split_lines; [|intros ->; discriminate Hrows|exact HP].
  now rewrite filter_nonEmptyRows, Hrows.
Qed.

Lemma lookup_map {A B : Type} (f : A -> B) (l : list A) (i : nat) :
  map f l !! i = f <$> l !! i.
Proof. rewrite map_fmap. apply list_lookup_fmap. Qed.

(** ** The object of a row *)

Lemma rowObject_lookup columnNames :
  NoDup columnNames -> forall cells obj col,
  Papa.rowObject columnNames cells obj !! col =
    match (list_to_map (zip columnNames cells) : gmap string string) !! col with
    | Some v => Some v
    | None => obj !! col
    end.
Proof.
  induction 1 as [|c cs Hc Hcs IH]; intros cells obj col; [reflexivity|].
  destruct cells as [|cell cells]; [reflexivity|]. simpl. rewrite IH.
  destruct (decide (c = col)) as [->|Hne].
  - rewrite lookup_insert_eq.
    rewrite (not_elem_of_list_to_map_1 (zip cs cells) col); [now rewrite lookup_insert_eq|].
    intros [[k v] [-> Hin]]%list_elem_of_fmap. now apply elem_of_zip_l in Hin.
  - now rewrite !lookup_insert_ne.
Qed.

Lemma rowObject_CellOf columnNames cells col :
  NoDup columnNames ->
  CellOf columnNames cells col (JS.orEmpty (Papa.rowObject columnNames cells ∅ !! col)).
Proof.
  intros Hnd. rewrite (rowObject_lookup _ Hnd), lookup_empty, orEmpty_spec.
  destruct (list_to_map (zip columnNames cells) !! col) as [v|] eqn:E; simpl.
  - left. apply elem_of_list_to_map_2 in E.
    apply elem_of_lookup_zip_with_1 in E as (j & x & y & [= -> ->] & Hx & Hy). eauto.
  - right. split; [|reflexivity]. intros j Hj.
    destruct (cells !! j) as [v|] eqn:Hv; [|reflexivity]. exfalso.
    apply not_elem_of_list_to_map_2 in E. apply E.
    apply list_elem_of_fmap. exists (col, v). split; [reflexivity|].
    exact (elem_of_lookup_zip_with_2 pair columnNames cells col v (col, v) j Hj Hv).
Qed.

(** C6. For well-formed tabular text with a header row, the loader, calling
    the parser with [header] and [skipEmptyLines], ends with exactly one
    record per non-empty data row, in the order of the text; each field of
    a record is the cell standing under the column of that name, wherever
    that column stands, and the empty string when the row has no cell there
    or the text has no such column. *)
Theorem record_parser_one_record_per_data_row
    (table : list (list string)) (columnNames : list string)
    (rows : list (list string)) (response : Response) (st : AppState) :
  WellFormedTable table columnNames rows ->
  ok response = true ->
  text response = Normal (renderTable table) ->
  JS.startsWith (JS.trim (renderTable table)) "<!DOCTYPE html>" = false ->
  let R := data (loadData (Papa.parse parseConfig) (Normal response) st) in
  length R = length rows /\
  forall i cells, rows !! i = Some cells ->
    exists person, R !! i = Some person /\
      CellOf columnNames cells "name" (name person) /\
      CellOf columnNames cells "affiliation" (affiliation person) /\
      CellOf columnNames cells "keyword1" (keyword1 person) /\
      CellOf columnNames cells "keyword2" (keyword2 person) /\
      CellOf columnNames cells "keyword3" (keyword3 person).
Proof.
  intros (HP & Hrows & Hnd & _) Hok Htext Hhtml R. subst R.
  unfold_load. rewrite Hok. cbn [negb].
  rewrite Htext, Hhtml, (parse_renderTable _ _ _ HP Hrows). simpl.
  split; [now rewrite !length_map|].
  intros i cells Hcells. eexists. split.
  - rewrite !lookup_map, Hcells. reflexivity.
  - unfold toPerson. simpl. repeat split; now apply rowObject_CellOf.
Qed.

Lemma record_parser_one_record_per_data_row_witness :
  let response := okResponse (renderTable sampleTable) in
  let R := data (loadData (Papa.parse parseConfig) (Normal response) initialState) in
  WellFormedTable sampleTable ["keyword1"; "name"; "affiliation"]
                  [["mixing"; "Ada"; "Eawag"]; ["ice"; "Bob"]] /\
  R = [mkPerson "Ada" "Eawag" "mixing" "" ""; mkPerson "Bob" "" "ice" "" ""] /\
  length R = 2 /\
  forall i cells, [["mixing"; "Ada"; "Eawag"]; ["ice"; "Bob"]] !! i = Some cells ->
    exists person, R !! i = Some person /\
      CellOf ["keyword1"; "name"; "affiliation"] cells "name" (name person) /\
      CellOf ["keyword1"; "name"; "affiliation"] cells "affiliation" (affiliation person) /\
      CellOf ["keyword1"; "name"; "affiliation"] cells "keyword1" (keyword1 person) /\
      CellOf ["keyword1"; "name"; "affiliation"] cells "keyword2" (keyword2 person) /\
      CellOf ["keyword1"; "name"; "affiliation"] cells "keyword3" (keyword3 person).
Proof.
  assert (H : WellFormedTable sampleTable ["keyword1"; "name"; "affiliation"]
                [["mixing"; "Ada"; "Eawag"]; ["ice"; "Bob"]]).
  { split; [|split; [reflexivity|split]].
    - unfold PlainTable, sampleTable.
      repeat (constructor; [split; [discriminate | repeat constructor]|]).
      constructor.
    - apply (bool_decide_unpack _). vm_compute. exact I.
    - repeat (constructor; [simpl; lia|]). constructor. }
  split; [exact H|]. split; [vm_compute; reflexivity|].
  apply (record_parser_one_record_per_data_row sampleTable _ _
           (okResponse (renderTable sampleTable)) initialState H);
    reflexivity.
Defined.

(** * Which loads fall back to the sample data *)





(** The two options matter: without [skipEmptyLines] the empty lines of the
    sample table become empty records, and without [header] no row has a
    column called [name]. *)
Example parse_without_skipEmptyLines :
  match Papa.parse (mkConfig true false) (renderTable sampleTable) with
  | ParseComplete rows => name <$> (toPerson <$> rows)
  | ParseError _ => []
  end = [""; "Ada"; "Bob"; ""].
Proof. vm_compute. reflexivity. Qed.

Example parse_without_header :
  match Papa.parse (mkConfig false true) (renderTable sampleTable) with
  | ParseComplete rows => name <$> (toPerson <$> rows)
  | ParseError _ => []
  end = [""; ""; ""].
Proof. vm_compute. reflexivity. Qed.
